(** * aw-server: the REST resources of [aw_server/api.py]

    A shallow embedding of the Flask-RESTful resources of the activity
    watch server and of the event store they call, with the properties of
    the heartbeat, event, bucket and session endpoints.

    Python values are embedded as follows.
    - [datetime] and [timedelta] are integers (microseconds), type [Z].
    - module-level dictionaries ([heartbeats], [SessionManager._sessions],
      [app.db]) are finite maps [gmap string _]; together they form the
      [Server] state, threaded through every handler.
    - a handler is a state transformer that may raise: [Handler A].
    - [os.urandom] and [datetime.now()] are inputs of the handlers that
      call them.
    - a request reaches a method the way Flask calls it: with the URL
      variable of the route as a keyword argument ([handle]).
    - the datastore behind [app.db] is not among the sources; it is
      modelled from the specification, section by section. *)

From Stdlib Require Import ZArith Ascii String List Sorted Permutation Lia.
From Stdlib.Strings Require Import Byte.
From stdpp Require Import gmap strings list sorting.

Local Open Scope Z_scope.

(** ** Values *)

Abbreviation datetime := Z (only parsing).
Abbreviation timedelta := Z (only parsing).

(** A JSON scalar, as [request.get_json()] decodes it. *)
Inductive Scalar : Type :=
  | SNone
  | SBool (b : bool)
  | SInt (z : Z)
  | SStr (s : string).

(** An event: a JSON object with an optional id, a timestamp, a duration
    and a mapping of string keys to scalars. *)
Record Event : Type := mkEvent {
  event_id : option nat;
  timestamp : datetime;
  duration : timedelta;
  data : gmap string Scalar
}.

(** The decoded body of a request, by the cases [isinstance] tells apart in
    the handlers: a [dict], a [list], anything else.  The model covers the
    bodies whose [dict]s are events: a [dict] is read as the event it is
    passed to the store as, and so are the elements of a [list]; the
    handlers themselves pass on whatever the body holds. *)
Inductive Json : Type :=
  | JDict (e : Event)
  | JList (es : list Event)
  | JScalar (v : Scalar).

(** Flask's ambient [request], for a request whose body Flask could
    decode: the value [request.get_json()] returns and the query
    arguments.  A body that cannot be decoded makes [request.get_json()]
    raise inside Flask; such requests are outside this model. *)
Record Request : Type := mkRequest {
  get_json : Json;
  args : gmap string Z
}.

(** What a handler returns: a body ([None], [{}], a string, the
    dictionary [{"session_key": k}], a bucket's metadata, the text of
    [t.isoformat()], a list of events) and, where the handler gives one, a
    status code. *)
Inductive Body : Type :=
  | BNone
  | BEmpty
  | BText (s : string)
  | BSessionKey (k : string)
  | BMetadata (bucket type : string)
  | BIsoformat (t : datetime)
  | BEvents (es : list Event).

Record Response : Type := mkResponse {
  body : Body;
  status : option nat
}.

(** Flask-RESTful answers 200 when the handler returns a body alone. *)
Definition http_status (r : Response) : nat := default 200%nat (status r).

(** ** binascii.hexlify *)

Module binascii.

Definition hexdigits : list ascii := list_ascii_of_string "0123456789abcdef".

Definition hex_digit (n : nat) : ascii := nth n hexdigits "0"%char.

Definition hexlify_byte (b : byte) : list ascii :=
  let n := N.to_nat (Byte.to_N b) in
  [hex_digit (n / 16); hex_digit (n mod 16)].

(** [binascii.hexlify(bs).decode("utf8")]: two lowercase digits a byte. *)
Definition hexlify (bs : list byte) : string :=
  string_of_list_ascii (flat_map hexlify_byte bs).

Definition is_hexdigit (c : ascii) : bool :=
  existsb (Ascii.eqb c) hexdigits.

Fixpoint index_of (c : ascii) (l : list ascii) : option nat :=
  match l with
  | [] => None
  | d :: l' => if Ascii.eqb c d then Some 0%nat else S <$> index_of c l'
  end.

Definition unhex_pair (hi lo : ascii) : option byte :=
  match index_of hi hexdigits, index_of lo hexdigits with
  | Some h, Some l => Byte.of_N (N.of_nat (16 * h + l))
  | _, _ => None
  end.

(** The inverse reading of a hex string, two digits a byte. *)
Fixpoint unhexlify_chars (cs : list ascii) : option (list byte) :=
  match cs with
  | [] => Some []
  | hi :: lo :: cs' =>
      match unhex_pair hi lo, unhexlify_chars cs' with
      | Some b, Some bs => Some (b :: bs)
      | _, _ => None
      end
  | [_] => None
  end.

Definition unhexlify (s : string) : option (list byte) :=
  unhexlify_chars (list_ascii_of_string s).

End binascii.

(** [os.urandom(n)]: the next [n] bytes of the system's entropy source,
    here the stream [rnd]. *)
Definition os_urandom (rnd : nat -> byte) (n : nat) : list byte :=
  map rnd (seq 0 n).

(** ** Sessions *)

Definition SECURITY_ENABLED : bool := false.

(** The dictionary [{"session_key": session_key}] kept for a session. *)
Record Session : Type := mkSession { session_key : string }.

Module SessionManager.

Definition start_session (rnd : nat -> byte) (session_id : string)
    (sessions : gmap string Session) : gmap string Session * string :=
  let key := binascii.hexlify (os_urandom rnd 24) in
  (<[session_id := {| session_key := key |}]> sessions, key).

Definition stop_session (sessions : gmap string Session) : gmap string Session :=
  sessions.

(** [verify_session], with the module's flag as an argument. *)
Definition verify_session_if (security_enabled : bool)
    (sessions : gmap string Session) (session_id key : string) : bool :=
  if security_enabled then
    match sessions !! session_id with
    | None => false
    | Some session => String.eqb (session_key session) key
    end
  else true.

Definition verify_session := verify_session_if SECURITY_ENABLED.

End SessionManager.

(** ** The event store *)

(** Modelled from the spec: the bucket, [aw_server]'s datastore class is
    not part of the sources; section 3 gives its fields. *)
Record Bucket : Type := mkBucket {
  bucket_id : string;
  event_type : string;
  events : list Event
}.

(** The exceptions of the handlers: [NotFound] is the spec's name for the
    failure on an unknown bucket, [NotImplementedError] is raised by
    [BucketResource.post], [TypeError] by the call of a method with a
    keyword argument it does not take. *)
Inductive Error : Type :=
  | NotFound
  | NotImplementedError
  | TypeError.

Inductive result (A : Type) : Type :=
  | Ok (a : A)
  | Raise (e : Error).
Arguments Ok {A} a.
Arguments Raise {A} e.

Module Datastore.

(** Modelled from the spec: [app.db[bucket_id]], the datastore's lookup is
    not part of the sources; an unknown bucket fails with [NotFound]
    (section 4.1). *)
Definition getitem (db : gmap string Bucket) (id : string) : result Bucket :=
  match db !! id with
  | Some b => Ok b
  | None => Raise NotFound
  end.

(** Modelled from the spec: [Bucket.metadata()], not part of the sources;
    the bucket's id and type (section 3). *)
Definition metadata (b : Bucket) : string * string :=
  (bucket_id b, event_type b).

(** Modelled from the spec: the id the store gives an event that has none,
    unique within the bucket (section 3): one more than every id present. *)
Definition fresh_id (es : list Event) : nat :=
  S (foldr (fun e m => Nat.max (default 0%nat (event_id e)) m) 0%nat es).

(** Modelled from the spec: [Bucket.insert(event)], not part of the
    sources; it assigns an id if absent and appends (section 4.1). *)
Definition insert (b : Bucket) (e : Event) : Bucket :=
  let stored :=
    match event_id e with
    | Some _ => e
    | None => mkEvent (Some (fresh_id (events b))) (timestamp e) (duration e) (data e)
    end in
  mkBucket (bucket_id b) (event_type b) (events b ++ [stored]).

(** Modelled from the spec: the range of a query; the start is not
    range-inclusive (sections 4.1 and 9: exclusive start) and the end is
    exclusive (section 4.1); an absent bound does not bound. *)
Definition in_range (start end_ : option datetime) (e : Event) : bool :=
  match start with Some s => s <? timestamp e | None => true end
  && match end_ with Some t => timestamp e <? t | None => true end.

(** Modelled from the spec: one step of the sort below; [x] goes before
    the first event that is not more recent than it. *)
Fixpoint insert_desc (x : Event) (l : list Event) : list Event :=
  match l with
  | [] => [x]
  | y :: l' =>
      if timestamp y <=? timestamp x then x :: l else y :: insert_desc x l'
  end.

(** Modelled from the spec: sorting by timestamp, most recent first
    (section 4.1); a stable insertion sort, as Python's [sorted] is. *)
Definition sort_desc (l : list Event) : list Event :=
  foldr insert_desc [] l.

(** Modelled from the spec: [limit = -1] is unbounded, [limit >= 0] keeps
    the first [limit] results (section 4.1); an absent limit, as in the
    handler's [get()], does not truncate.  The spec says nothing of a
    limit below -1, which keeps nothing here. *)
Definition truncate (limit : option Z) (l : list Event) : list Event :=
  match limit with
  | None => l
  | Some n => if n =? -1 then l else firstn (Z.to_nat n) l
  end.

(** Modelled from the spec: [Bucket.get(start?, end?, limit?)], not part of
    the sources; it filters by range first, then sorts descending by
    timestamp, then applies the limit (sections 4.1 and 4.3). *)
Definition get (b : Bucket) (start end_ : option datetime) (limit : option Z)
    : list Event :=
  truncate limit (sort_desc (List.filter (in_range start end_) (events b))).

End Datastore.

(** ** The server: module state and handlers *)

(** [app.db], [session_manager._sessions] and the module's [heartbeats]. *)
Record Server : Type := mkServer {
  db : gmap string Bucket;
  sessions : gmap string Session;
  heartbeats : gmap string datetime
}.

(** A handler reads and writes the module state and returns or raises; an
    exception leaves the writes made before it in place. *)
Definition Handler (A : Type) : Type := Server -> Server * result A.

Definition ret {A} (a : A) : Handler A := fun s => (s, Ok a).

Definition raise {A} (e : Error) : Handler A := fun s => (s, Raise e).

Definition bind {A B} (m : Handler A) (k : A -> Handler B) : Handler B :=
  fun s =>
    match m s with
    | (s', Ok a) => k a s'
    | (s', Raise e) => (s', Raise e)
    end.

Notation "x <- m ;; k" := (bind m (fun x => k))
  (at level 100, m at next level, k at level 200, right associativity).
Notation "'run' m ;; k" := (bind m (fun _ => k))
  (at level 100, m at next level, k at level 200, right associativity).

(** [app.db[bucket_id]] *)
Definition db_getitem (id : string) : Handler Bucket :=
  fun s => (s, Datastore.getitem (db s) id).

(** The bucket object is mutated in place: the store holds the new one. *)
Definition db_store (id : string) (b : Bucket) : Handler unit :=
  fun s => (mkServer (<[id := b]> (db s)) (sessions s) (heartbeats s), Ok tt).

(** [app.db[bucket_id].insert(event)] *)
Definition db_insert (id : string) (e : Event) : Handler unit :=
  b <- db_getitem id ;;
  db_store id (Datastore.insert b e).

(** [for event in data: app.db[bucket_id].insert(event)] *)
Fixpoint insert_each (id : string) (es : list Event) : Handler unit :=
  match es with
  | [] => ret tt
  | e :: es' => run db_insert id e ;; insert_each id es'
  end.

Definition returns (b : Body) : Response := mkResponse b None.
Definition returns_with (b : Body) (code : nat) : Response := mkResponse b (Some code).

Module StartSessionResource.

Definition post (rnd : nat -> byte) (session_id : string) (request : Request)
    : Handler Response :=
  fun s =>
    let _data := get_json request in
    let '(sessions', key) := SessionManager.start_session rnd session_id (sessions s) in
    (mkServer (db s) sessions' (heartbeats s), Ok (returns (BSessionKey key))).

End StartSessionResource.

Module StopSessionResource.

Definition post (session_id : string) (request : Request) : Handler Response :=
  let _data := get_json request in
  ret (returns BNone).

End StopSessionResource.

Module BucketResource.

Definition get (id : string) (request : Request) : Handler Response :=
  b <- db_getitem id ;;
  let '(name, type) := Datastore.metadata b in
  ret (returns (BMetadata name type)).

Definition post (id : string) (request : Request) : Handler Response :=
  raise NotImplementedError.

End BucketResource.

Module EventResource.

(** [return app.db[bucket_id].get()]: the store is asked without
    arguments, whatever the request's query arguments are. *)
Definition get (id : string) (request : Request) : Handler Response :=
  b <- db_getitem id ;;
  ret (returns (BEvents (Datastore.get b None None None))).

Definition post (id : string) (request : Request) : Handler Response :=
  match get_json request with
  | JDict e =>
      run db_insert id e ;;
      ret (returns_with BEmpty 200)
  | JList es =>
      run insert_each id es ;;
      ret (returns_with BEmpty 200)
  | JScalar _ =>
      ret (returns_with BEmpty 500)
  end.

End EventResource.

Module HeartbeatResource.

Definition get (client_name : string) (request : Request) : Handler Response :=
  fun s =>
    match heartbeats s !! client_name with
    | Some t => (s, Ok (returns (BIsoformat t)))
    | None => (s, Ok (returns (BText "No heartbeat has been received for this client")))
    end.

(** [now] is the value of [datetime.now()] at the call. *)
Definition post (now : datetime) (client_name : string) (request : Request)
    : Handler Response :=
  fun s =>
    (mkServer (db s) (sessions s) (<[client_name := now]> (heartbeats s)),
     Ok (returns_with (BText "success") 200)).

End HeartbeatResource.

(** ** Event literals *)

Definition label_test : gmap string Scalar := {[ "label"%string := SStr "test" ]}.

(** An event to write examples with: no id, duration zero, the data
    [{"label": "test"}] and the timestamp given. *)
Definition new_event (ts : datetime) : Event := mkEvent None ts 0 label_test.

Definition seconds (n : Z) : timedelta := n * 1000000.
Definition hours (n : Z) : timedelta := seconds (n * 3600).
Definition days (n : Z) : timedelta := hours (n * 24).

(** ** Notions the properties are stated with *)

(** Most recent first: [y] may follow [x] in a result. *)
Definition newest_first (x y : Event) : Prop := timestamp y <= timestamp x.

(** [x] is strictly before [y]. *)
Definition older (x y : Event) : Prop := timestamp x < timestamp y.

(** The content of an event, its id apart. *)
Definition same_content (stored e : Event) : Prop :=
  timestamp stored = timestamp e
  /\ duration stored = duration e
  /\ data stored = data e.

(** The events a bucket of the store holds, if the bucket exists. *)
Definition events_of (s : Server) (id : string) : option (list Event) :=
  events <$> db s !! id.

(** A server whose store holds one bucket, empty, as the test suite's
    [bucket] fixture leaves it. *)
Definition fresh_server (id : string) : Server :=
  mkServer {[ id := mkBucket id "testevents" [] ]} ∅ ∅.

(** The state a handler leaves, and what it returns. *)
Definition state_after {A} (m : Handler A) (s : Server) : Server := fst (m s).
Definition outcome {A} (m : Handler A) (s : Server) : result A := snd (m s).

(** The store with [id]'s bucket replaced, the rest of the state kept. *)
Definition with_bucket (s : Server) (id : string) (b : Bucket) : Server :=
  mkServer (<[id := b]> (db s)) (sessions s) (heartbeats s).

(** A heartbeat as a client sends it: the event as the body, the pulsetime
    (seconds) as a query argument. *)
Definition heartbeat_request (e : Event) (pulsetime : Z) : Request :=
  mkRequest (JDict e) {[ "pulsetime"%string := pulsetime ]}.

(** A query for events as a client sends it. *)
Definition events_request (start end_ : datetime) (limit : Z) : Request :=
  mkRequest (JScalar SNone)
    {[ "start"%string := start; "end"%string := end_; "limit"%string := limit ]}.

(** A moment to place the examples at: 2016-11-04 00:00:00.123 UTC. *)
Definition a_moment : datetime := 1478217600123000.

(** [n] events an hour apart from [start], oldest first. *)
Definition hourly_events (n : nat) (start : datetime) : list Event :=
  map (fun i => new_event (start + Z.of_nat i * hours 1)) (seq 0 n).

(** ** Routes and sequences of calls *)

(** Flask, which is not part of the sources, calls the method of the
    resource registered for a route with the value of the route's URL
    variable as a keyword argument, under the variable's name; a method
    that has no parameter of that name raises [TypeError] before its body
    runs. *)
Definition call_with_keyword {A} (url_variable parameter : string)
    (method : string -> Handler A) (value : string) : Handler A :=
  if String.eqb url_variable parameter then method value else raise TypeError.

(** A request to one of the routes of [api.py]: the value of the URL
    variable, the request, and the entropy or the clock the handler would
    read. *)
Inductive ApiCall : Type :=
  | StartSession (rnd : nat -> byte) (value : string) (request : Request)
  | StopSession (value : string) (request : Request)
  | GetBucket (value : string) (request : Request)
  | PostBucket (value : string) (request : Request)
  | GetEvents (value : string) (request : Request)
  | PostEvents (value : string) (request : Request)
  | GetHeartbeat (value : string) (request : Request)
  | PostHeartbeat (now : datetime) (value : string) (request : Request).

(** The call Flask makes for a request: the URL variable is named as in
    the [@api.resource] line of the class, the parameter as in the [def]
    line of the method.  The heartbeat route,
    ["/api/0/heartbeat/<string:session_id>"], names its variable
    [session_id]; the methods of [HeartbeatResource] take [client_name]. *)
Definition handle (c : ApiCall) : Handler Response :=
  match c with
  | StartSession rnd value request =>
      call_with_keyword "session_id" "session_id"
        (fun session_id => StartSessionResource.post rnd session_id request) value
  | StopSession value request =>
      call_with_keyword "session_id" "session_id"
        (fun session_id => StopSessionResource.post session_id request) value
  | GetBucket value request =>
      call_with_keyword "bucket_id" "bucket_id"
        (fun bucket_id => BucketResource.get bucket_id request) value
  | PostBucket value request =>
      call_with_keyword "bucket_id" "bucket_id"
        (fun bucket_id => BucketResource.post bucket_id request) value
  | GetEvents value request =>
      call_with_keyword "bucket_id" "bucket_id"
        (fun bucket_id => EventResource.get bucket_id request) value
  | PostEvents value request =>
      call_with_keyword "bucket_id" "bucket_id"
        (fun bucket_id => EventResource.post bucket_id request) value
  | GetHeartbeat value request =>
      call_with_keyword "session_id" "client_name"
        (fun client_name => HeartbeatResource.get client_name request) value
  | PostHeartbeat now value request =>
      call_with_keyword "session_id" "client_name"
        (fun client_name => HeartbeatResource.post now client_name request) value
  end.

(** The state after a sequence of calls, whether they return or raise. *)
Definition run_calls (cs : list ApiCall) (s : Server) : Server :=
  foldl (fun s c => state_after (handle c) s) s cs.

(** The events a body asks [EventResource.post] to insert. *)
Definition posted_events (request : Request) : list Event :=
  match get_json request with
  | JDict e => [e]
  | JList es => es
  | JScalar _ => []
  end.

(** The key returned by the last session start of [session_id] among the
    calls, or [before] if there is none. *)
Definition last_session_key (session_id : string) (cs : list ApiCall)
    (before : option string) : option string :=
  foldl (fun acc c =>
           match c with
           | StartSession rnd id _ =>
               if String.eqb id session_id
               then Some (binascii.hexlify (os_urandom rnd 24))
               else acc
           | _ => acc
           end)
        before cs.

(** The calls that only read, or do nothing: the GET handlers, the session
    stop and the bucket creation that is not implemented. *)
Definition only_reads (c : ApiCall) : bool :=
  match c with
  | StartSession _ _ _ | PostEvents _ _ | PostHeartbeat _ _ _ => false
  | _ => true
  end.

(** * Properties *)

(** ** Hex encoding *)

Section Hexlify.
Import binascii.

Lemma hexlify_byte_length (b : byte) : length (hexlify_byte b) = 2%nat.
Proof. reflexivity. Qed.

Lemma hexlify_chars_length (bs : list byte) :
  length (flat_map hexlify_byte bs) = (2 * length bs)%nat.
Proof.
  induction bs as [|b bs IH]; simpl; [reflexivity|].
  rewrite IH. lia.
Qed.

Lemma hexlify_length (bs : list byte) :
  String.length (hexlify bs) = (2 * length bs)%nat.
Proof.
  unfold hexlify.
  rewrite <- (hexlify_chars_length bs).
  generalize (flat_map hexlify_byte bs) as cs.
  induction cs as [|c cs IH]; simpl; congruence.
Qed.

Lemma hexlify_byte_digits (b : byte) :
  forallb is_hexdigit (hexlify_byte b) = true.
Proof. destruct b; reflexivity. Qed.

Lemma hexlify_digits (bs : list byte) :
  forallb is_hexdigit (list_ascii_of_string (hexlify bs)) = true.
Proof.
  unfold hexlify. rewrite list_ascii_of_string_of_list_ascii.
  induction bs as [|b bs IH]; [reflexivity|].
  cbn [flat_map]. rewrite forallb_app, IH, hexlify_byte_digits. reflexivity.
Qed.

Lemma unhex_hexlify_byte (b : byte) :
  match hexlify_byte b with
  | [hi; lo] => unhex_pair hi lo = Some b
  | _ => False
  end.
Proof. destruct b; reflexivity. Qed.

Lemma unhexlify_hexlify (bs : list byte) : unhexlify (hexlify bs) = Some bs.
Proof.
  unfold unhexlify, hexlify. rewrite list_ascii_of_string_of_list_ascii.
  induction bs as [|b bs IH]; [reflexivity|].
  cbn [flat_map].
  pose proof (unhex_hexlify_byte b) as Hb.
  destruct (hexlify_byte b) as [|hi [|lo [|? ?]]]; try contradiction.
  cbn [app unhexlify_chars]. rewrite Hb, IH. reflexivity.
Qed.

Lemma hexlify_inj (bs1 bs2 : list byte) : hexlify bs1 = hexlify bs2 -> bs1 = bs2.
Proof.
  intros H. apply (f_equal unhexlify) in H.
  rewrite !unhexlify_hexlify in H. congruence.
Qed.

End Hexlify.

Lemma os_urandom_length (rnd : nat -> byte) (n : nat) :
  length (os_urandom rnd n) = n.
Proof. unfold os_urandom. rewrite length_map, length_seq. reflexivity. Qed.

(** ** Sessions *)

(** C8: starting a session returns the hex encoding of the 24 bytes read
    from the entropy source, a string of 48 hex digits from which the 24
    bytes can be read back, and records it under the session id, leaving
    the other sessions, the store and the heartbeats as they were. *)
Theorem start_session_returns_hex_key (rnd : nat -> byte) (session_id : string)
    (request : Request) (s : Server) :
  let bs := os_urandom rnd 24 in
  let key := binascii.hexlify bs in
  let '(s', r) := StartSessionResource.post rnd session_id request s in
  r = Ok (returns (BSessionKey key))
  /\ length bs = 24%nat
  /\ String.length key = 48%nat
  /\ forallb binascii.is_hexdigit (list_ascii_of_string key) = true
  /\ binascii.unhexlify key = Some bs
  /\ sessions s' !! session_id = Some (mkSession key)
  /\ sessions s' = <[session_id := mkSession key]> (sessions s)
  /\ db s' = db s /\ heartbeats s' = heartbeats s.
Proof.
  cbv zeta. unfold StartSessionResource.post, SessionManager.start_session.
  cbn [db sessions heartbeats].
  split; [reflexivity|].
  split; [apply os_urandom_length|].
  split; [rewrite hexlify_length, os_urandom_length; reflexivity|].
  split; [apply hexlify_digits|].
  split; [apply unhexlify_hexlify|].
  split; [apply lookup_insert_eq|].
  split; [reflexivity|]. split; reflexivity.
Qed.

(** C9: with the module's flag at its value, [False], [verify_session] is
    true for every session map, id and key; with the flag set it is true
    exactly when the id has a session whose stored key is the given one. *)
Theorem verify_session_flag :
  SECURITY_ENABLED = false
  /\ (forall sessions id key,
        SessionManager.verify_session sessions id key = true)
  /\ (forall sessions id key,
        SessionManager.verify_session_if true sessions id key = true
        <-> exists session,
              sessions !! id = Some session /\ session_key session = key).
Proof.
  split; [reflexivity|]. split; [reflexivity|].
  intros sessions id key. unfold SessionManager.verify_session_if.
  destruct (sessions !! id) as [session|] eqn:E.
  - rewrite String.eqb_eq. split.
    + intros H. exists session. split; [reflexivity | exact H].
    + intros (session' & Hs & Hk). congruence.
  - split; [discriminate|]. intros (session' & Hs & _). discriminate.
Qed.

(** ** The store's query *)

Section Query.
Import Datastore.

Lemma insert_desc_perm (x : Event) (l : list Event) :
  Permutation (insert_desc x l) (x :: l).
Proof.
  induction l as [|y l IH]; simpl; [reflexivity|].
  destruct (timestamp y <=? timestamp x); [reflexivity|].
  rewrite IH. apply perm_swap.
Qed.

Lemma sort_desc_perm (l : list Event) : Permutation (sort_desc l) l.
Proof.
  induction l as [|x l IH]; simpl; [reflexivity|].
  rewrite insert_desc_perm. now constructor.
Qed.

Lemma insert_desc_sorted (x : Event) (l : list Event) :
  StronglySorted newest_first l -> StronglySorted newest_first (insert_desc x l).
Proof.
  induction 1 as [|y l Hl IH Hy]; simpl.
  - repeat constructor.
  - destruct (timestamp y <=? timestamp x) eqn:E.
    + apply Z.leb_le in E. constructor; [now constructor|].
      constructor; [exact E|].
      eapply Forall_impl; [exact Hy|].
      unfold newest_first. intros z Hz. lia.
    + apply Z.leb_gt in E. constructor; [exact IH|].
      eapply Permutation_Forall; [symmetry; apply insert_desc_perm|].
      constructor; [unfold newest_first; lia | exact Hy].
Qed.

Lemma sort_desc_sorted (l : list Event) :
  StronglySorted newest_first (sort_desc l).
Proof.
  induction l as [|x l IH]; simpl; [constructor|].
  now apply insert_desc_sorted.
Qed.

Lemma filter_unbounded (l : list Event) :
  List.filter (in_range None None) l = l.
Proof.
  induction l as [|e l IH]; [reflexivity|]. cbn. now rewrite IH.
Qed.

End Query.

(** ** Inserting into the store *)

Lemma db_insert_found (id : string) (e : Event) (s : Server) (b : Bucket) :
  db s !! id = Some b ->
  db_insert id e s = (with_bucket s id (Datastore.insert b e), Ok tt).
Proof.
  intros H. unfold db_insert, bind, db_getitem, Datastore.getitem.
  rewrite H. reflexivity.
Qed.

Lemma db_insert_unknown (id : string) (e : Event) (s : Server) :
  db s !! id = None -> db_insert id e s = (s, Raise NotFound).
Proof.
  intros H. unfold db_insert, bind, db_getitem, Datastore.getitem.
  rewrite H. reflexivity.
Qed.

Lemma with_bucket_id (s : Server) (id : string) (b : Bucket) :
  db s !! id = Some b -> with_bucket s id b = s.
Proof.
  intros H. destruct s as [d ss hb]. unfold with_bucket. cbn in *.
  now rewrite insert_id.
Qed.

Lemma with_bucket_twice (s : Server) (id : string) (b b' : Bucket) :
  with_bucket (with_bucket s id b) id b' = with_bucket s id b'.
Proof.
  unfold with_bucket. cbn. now rewrite insert_insert_eq.
Qed.

Lemma insert_each_found (es : list Event) (id : string) (s : Server) (b : Bucket) :
  db s !! id = Some b ->
  insert_each id es s = (with_bucket s id (foldl Datastore.insert b es), Ok tt).
Proof.
  revert s b. induction es as [|e es IH]; intros s b H; cbn [insert_each foldl].
  - now rewrite with_bucket_id.
  - unfold bind at 1. rewrite (db_insert_found _ _ _ _ H).
    rewrite (IH _ (Datastore.insert b e)).
    + now rewrite with_bucket_twice.
    + cbn. apply lookup_insert_eq.
Qed.

Lemma insert_each_unknown (e : Event) (es : list Event) (id : string) (s : Server) :
  db s !! id = None -> insert_each id (e :: es) s = (s, Raise NotFound).
Proof.
  intros H. cbn [insert_each]. unfold bind.
  now rewrite db_insert_unknown.
Qed.

Lemma insert_same_content (b : Bucket) (e : Event) :
  exists stored,
    events (Datastore.insert b e) = events b ++ [stored]
    /\ same_content stored e
    /\ is_Some (event_id stored).
Proof.
  unfold Datastore.insert. destruct e as [[i|] t d m]; cbn.
  - eexists. split; [reflexivity|]. split; [now repeat split | now eexists].
  - eexists. split; [reflexivity|]. split; [now repeat split | now eexists].
Qed.

(** Inserting one event after the other appends them in order: what was
    stored stays, each event arrives with its content and has an id. *)
Lemma insert_all_appends (es : list Event) (b : Bucket) :
  exists stored,
    events (foldl Datastore.insert b es) = events b ++ stored
    /\ Forall2 same_content stored es
    /\ Forall (fun e => is_Some (event_id e)) stored.
Proof.
  revert b. induction es as [|e es IH]; intros b; cbn [foldl].
  - exists []. rewrite app_nil_r. repeat split; constructor.
  - destruct (IH (Datastore.insert b e)) as (rest & Hev & Hc & Hid).
    destruct (insert_same_content b e) as (st & He & Hst & Hi).
    exists (st :: rest). rewrite Hev, He, <- app_assoc.
    split; [reflexivity|]. split; now constructor.
Qed.

(** ** The events endpoint: POST *)

(** C7: a POST to the events endpoint of an existing bucket whose body is
    one object appends that one event and answers 200; whose body is an
    array appends every element, in order, and answers 200; whose body is
    anything else leaves the state as it was and answers 500.  What the
    bucket held stays as it was and every posted event is stored on its
    own, whatever the last stored event is: nothing is merged. *)
Theorem post_events_inserts_unmerged (id : string) (request : Request)
    (s : Server) (b : Bucket) (Hb : db s !! id = Some b) :
  let s' := state_after (EventResource.post id request) s in
  let r := outcome (EventResource.post id request) s in
  match get_json request with
  | JDict e =>
      r = Ok (returns_with BEmpty 200)
      /\ exists stored,
           events_of s' id = Some (events b ++ [stored])
           /\ same_content stored e
  | JList es =>
      r = Ok (returns_with BEmpty 200)
      /\ exists stored,
           events_of s' id = Some (events b ++ stored)
           /\ Forall2 same_content stored es
           /\ length stored = length es
  | JScalar _ =>
      r = Ok (returns_with BEmpty 500) /\ s' = s
  end.
Proof.
  cbv zeta. unfold state_after, outcome, EventResource.post.
  destruct (get_json request) as [e|es|v].
  - unfold bind. rewrite (db_insert_found _ _ _ _ Hb). cbn [fst snd ret].
    split; [reflexivity|].
    destruct (insert_same_content b e) as (st & He & Hst & _).
    exists st. split; [|exact Hst].
    unfold events_of, with_bucket. cbn [db].
    rewrite lookup_insert_eq. exact (f_equal Some He).
  - unfold bind. rewrite (insert_each_found _ _ _ _ Hb). cbn [fst snd ret].
    split; [reflexivity|].
    destruct (insert_all_appends es b) as (st & He & Hst & _).
    exists st. split; [|split; [exact Hst | now apply Forall2_length in Hst]].
    unfold events_of, with_bucket. cbn [db].
    rewrite lookup_insert_eq. exact (f_equal Some He).
  - split; reflexivity.
Qed.

(** Two equal events posted in one array to an empty bucket are both
    stored. *)
Lemma post_events_inserts_unmerged_witness :
  let s := fresh_server "test-1" in
  let request := mkRequest (JList [new_event 0; new_event 0]) ∅ in
  db s !! "test-1"%string = Some (mkBucket "test-1" "testevents" [])
  /\ outcome (EventResource.post "test-1" request) s = Ok (returns_with BEmpty 200)
  /\ exists stored,
       events_of (state_after (EventResource.post "test-1" request) s) "test-1"
       = Some ([] ++ stored)
       /\ Forall2 same_content stored [new_event 0; new_event 0]
       /\ length stored = 2%nat.
Proof.
  cbv zeta. split; [reflexivity|].
  apply (post_events_inserts_unmerged "test-1"
           (mkRequest (JList [new_event 0; new_event 0]) ∅)
           (fresh_server "test-1") (mkBucket "test-1" "testevents" [])).
  reflexivity.
Defined.

(** C7 fails without its bucket: an object posted to the events of a
    bucket the store does not know raises [NotFound] and inserts nothing;
    it is not answered 200. *)
Lemma post_object_unknown_bucket_raises :
  let s := mkServer ∅ ∅ ∅ in
  let request := mkRequest (JDict (new_event 0)) ∅ in
  db s !! "no-such-bucket"%string = None
  /\ EventResource.post "no-such-bucket" request s = (s, Raise NotFound).
Proof. cbv zeta. split; reflexivity. Qed.

(** ** Unknown buckets *)

(** C6, as the code has it: on a bucket id the store does not know, the
    bucket's metadata, the events query and a POST of an object or of a
    non-empty array fail with [NotFound] and leave the state as it was; a
    POST of a body that is neither is answered 500 before the store is
    asked. *)
Theorem unknown_bucket_not_found (id : string) (request : Request)
    (s : Server) (Hb : db s !! id = None) :
  BucketResource.get id request s = (s, Raise NotFound)
  /\ EventResource.get id request s = (s, Raise NotFound)
  /\ (forall e, get_json request = JDict e ->
        EventResource.post id request s = (s, Raise NotFound))
  /\ (forall e es, get_json request = JList (e :: es) ->
        EventResource.post id request s = (s, Raise NotFound))
  /\ (forall v, get_json request = JScalar v ->
        EventResource.post id request s = (s, Ok (returns_with BEmpty 500))).
Proof.
  split; [|split; [|split; [|split]]].
  - unfold BucketResource.get, bind, db_getitem, Datastore.getitem.
    now rewrite Hb.
  - unfold EventResource.get, bind, db_getitem, Datastore.getitem.
    now rewrite Hb.
  - intros e He. unfold EventResource.post. rewrite He.
    unfold bind. now rewrite db_insert_unknown.
  - intros e es He. unfold EventResource.post. rewrite He.
    unfold bind. now rewrite insert_each_unknown.
  - intros v Hv. unfold EventResource.post. now rewrite Hv.
Qed.

(** On a store without buckets, the metadata and the events of
    "no-such-bucket" are not found. *)
Lemma unknown_bucket_not_found_witness :
  let s := mkServer ∅ ∅ ∅ in
  let request := mkRequest (JDict (new_event 0)) ∅ in
  db s !! "no-such-bucket"%string = None
  /\ BucketResource.get "no-such-bucket" request s = (s, Raise NotFound)
  /\ EventResource.get "no-such-bucket" request s = (s, Raise NotFound).
Proof.
  cbv zeta. split; [reflexivity|].
  pose proof (unknown_bucket_not_found "no-such-bucket"
                (mkRequest (JDict (new_event 0)) ∅) (mkServer ∅ ∅ ∅) eq_refl)
    as (Hmeta & Hget & _).
  split; [exact Hmeta | exact Hget].
Defined.

(** C6 fails for a malformed body: on a store without buckets, a POST to
    the events of an unknown bucket whose body is neither an object nor
    an array is answered 500; it does not fail with [NotFound]. *)
Lemma malformed_post_unknown_bucket_answers_500 :
  let s := mkServer ∅ ∅ ∅ in
  db s !! "no-such-bucket"%string = None
  /\ EventResource.post "no-such-bucket" (mkRequest (JScalar (SInt 7)) ∅) s
     = (s, Ok (returns_with BEmpty 500)).
Proof. cbv zeta. split; reflexivity. Qed.

(** An empty array posted to an unknown bucket is answered 200: the loop
    never reaches the store. *)
Lemma post_empty_array_unknown_bucket (id : string) (s : Server) :
  EventResource.post id (mkRequest (JList []) ∅) s
  = (s, Ok (returns_with BEmpty 200)).
Proof. reflexivity. Qed.

(** ** The heartbeat resource *)

(** The bodies of the two methods, run with the client's name: [get]
    returns the time the client has, or the text that none was received,
    as a plain return; [post] stores the server's time under the name,
    over what was there, returns "success", 200 and does not depend on the
    request; neither touches the store. *)
Lemma heartbeat_methods (client : string) (request request' : Request)
    (now : datetime) (s : Server) :
  match heartbeats s !! client with
  | None =>
      HeartbeatResource.get client request s
      = (s, Ok (returns (BText "No heartbeat has been received for this client")))
  | Some t =>
      HeartbeatResource.get client request s = (s, Ok (returns (BIsoformat t)))
  end
  /\ HeartbeatResource.post now client request s
     = (mkServer (db s) (sessions s) (<[client := now]> (heartbeats s)),
        Ok (returns_with (BText "success") 200))
  /\ HeartbeatResource.post now client request s
     = HeartbeatResource.post now client request' s.
Proof.
  split; [|split; reflexivity].
  unfold HeartbeatResource.get. now destruct (heartbeats s !! client).
Qed.

Lemma heartbeat_route (value : string) (request : Request) (now : datetime)
    (s : Server) :
  handle (GetHeartbeat value request) s = (s, Raise TypeError)
  /\ handle (PostHeartbeat now value request) s = (s, Raise TypeError).
Proof. split; reflexivity. Qed.

(** C10, on the code: a GET or a POST on the heartbeat route never reaches
    the method: the route names its URL variable [session_id], the
    methods take [client_name], so the call raises [TypeError] and the
    heartbeats are as before; no text is returned and no time is stored.
    Called under the name [client_name], the same methods do what the
    claim says: [get] for a client without a heartbeat returns the text
    as a plain return, which is answered 200, and [post] stores the
    server's time, returns "success", 200 and ignores the request. *)
Theorem heartbeat_route_raises_type_error (value : string)
    (request request' : Request) (now : datetime) (s : Server) :
  handle (GetHeartbeat value request) s = (s, Raise TypeError)
  /\ handle (PostHeartbeat now value request) s = (s, Raise TypeError)
  /\ call_with_keyword "client_name" "client_name"
       (fun client_name => HeartbeatResource.get client_name request) value s
     = HeartbeatResource.get value request s
  /\ call_with_keyword "client_name" "client_name"
       (fun client_name => HeartbeatResource.post now client_name request) value s
     = HeartbeatResource.post now value request s
  /\ match heartbeats s !! value with
     | None =>
         HeartbeatResource.get value request s
         = (s, Ok (returns (BText "No heartbeat has been received for this client")))
         /\ http_status
              (returns (BText "No heartbeat has been received for this client"))
            = 200%nat
     | Some t =>
         HeartbeatResource.get value request s = (s, Ok (returns (BIsoformat t)))
     end
  /\ HeartbeatResource.post now value request s
     = (mkServer (db s) (sessions s) (<[value := now]> (heartbeats s)),
        Ok (returns_with (BText "success") 200))
  /\ HeartbeatResource.post now value request s
     = HeartbeatResource.post now value request' s.
Proof.
  destruct (heartbeat_route value request now s) as [Hget Hpost].
  destruct (heartbeat_methods value request request' now s) as (Hg & Hp & Hr).
  split; [exact Hget|]. split; [exact Hpost|].
  split; [reflexivity|]. split; [reflexivity|].
  split; [|split; [exact Hp | exact Hr]].
  destruct (heartbeats s !! value); [exact Hg | split; [exact Hg | reflexivity]].
Qed.

(** C1, on the code at the input of [test_heartbeat]: two heartbeats with
    equal data, a second apart, the second with a pulsetime of ten
    seconds, sent for an empty bucket.  Through the route both calls
    raise [TypeError] and the bucket stays empty; run with the name, the
    two method bodies leave the bucket empty too: no event with the first
    timestamp and the duration of a second is stored. *)
Theorem heartbeat_pair_stores_no_event :
  let s := fresh_server "test-1" in
  let e1 := new_event a_moment in
  let e2 := new_event (a_moment + seconds 1) in
  let first := PostHeartbeat a_moment "test-1" (heartbeat_request e1 0) in
  let second := PostHeartbeat (a_moment + seconds 1) "test-1" (heartbeat_request e2 10) in
  data e1 = data e2
  /\ (timestamp e1 <? timestamp e2) = true
  /\ (timestamp e2 - timestamp e1 <=? seconds 10) = true
  /\ handle first s = (s, Raise TypeError)
  /\ handle second s = (s, Raise TypeError)
  /\ events_of (run_calls [first; second] s) "test-1" = Some []
  /\ events_of
       (state_after
          (HeartbeatResource.post (a_moment + seconds 1) "test-1" (heartbeat_request e2 10))
          (state_after
             (HeartbeatResource.post a_moment "test-1" (heartbeat_request e1 0)) s))
       "test-1"
     = Some [].
Proof. cbv zeta. repeat split. Qed.

(** C2, on the code: two heartbeats, whatever their data, timestamps and
    pulsetimes (so also with a pulsetime below the gap between them), add
    no event to any bucket: through the route both calls raise
    [TypeError] and leave the whole state as it was; run with the name,
    the two method bodies leave every bucket as it was.  A bucket empty
    before is empty after, where the claim has two events. *)
Theorem heartbeat_pair_adds_no_event (id value : string) (e1 e2 : Event)
    (pulsetime1 pulsetime2 : Z) (now1 now2 : datetime) (s : Server) :
  let request1 := heartbeat_request e1 pulsetime1 in
  let request2 := heartbeat_request e2 pulsetime2 in
  run_calls [PostHeartbeat now1 value request1; PostHeartbeat now2 value request2] s
  = s
  /\ events_of
       (state_after (HeartbeatResource.post now2 value request2)
          (state_after (HeartbeatResource.post now1 value request1) s)) id
     = events_of s id.
Proof. cbv zeta. split; reflexivity. Qed.

(** C3, on the code: a heartbeat sent twice with a pulsetime of zero
    stores no event, the first time or the second: through the route
    each call raises [TypeError] and leaves the state as it was; run with
    the name, the method body leaves every bucket as it was, once or
    twice.  The state after two sendings has the store of the state
    after one, but that store holds no event for the heartbeat. *)
Theorem heartbeat_retry_stores_no_event (id value : string) (e : Event)
    (now1 now2 : datetime) (s : Server) :
  let request := heartbeat_request e 0 in
  handle (PostHeartbeat now1 value request) s = (s, Raise TypeError)
  /\ run_calls [PostHeartbeat now1 value request; PostHeartbeat now2 value request] s
     = run_calls [PostHeartbeat now1 value request] s
  /\ events_of
       (run_calls [PostHeartbeat now1 value request; PostHeartbeat now2 value request] s)
       id
     = events_of s id
  /\ events_of
       (state_after (HeartbeatResource.post now2 value request)
          (state_after (HeartbeatResource.post now1 value request) s)) id
     = events_of (state_after (HeartbeatResource.post now1 value request) s) id
  /\ events_of (state_after (HeartbeatResource.post now1 value request) s) id
     = events_of s id.
Proof. cbv zeta. repeat split. Qed.

(** ** The events endpoint: GET *)

(** C5: a query with [limit = -1] and no bounds returns the events of the
    bucket, all of them, most recent first; the events endpoint, which
    asks the store without arguments, returns the same list. *)
Theorem unbounded_query_returns_all (id : string) (request : Request)
    (s : Server) (b : Bucket) (Hb : db s !! id = Some b) :
  let r := Datastore.get b None None (Some (-1)) in
  Permutation r (events b)
  /\ length r = length (events b)
  /\ StronglySorted newest_first r
  /\ EventResource.get id request s = (s, Ok (returns (BEvents r))).
Proof.
  cbv zeta. unfold Datastore.get, Datastore.truncate.
  change (-1 =? -1) with true. cbv iota.
  rewrite filter_unbounded.
  split; [apply sort_desc_perm|].
  split; [apply Permutation_length, sort_desc_perm|].
  split; [apply sort_desc_sorted|].
  unfold EventResource.get, bind, db_getitem, Datastore.getitem.
  rewrite Hb. unfold Datastore.get, Datastore.truncate.
  now rewrite filter_unbounded.
Qed.

(** Three events stored out of order come back most recent first,
    whatever the query arguments of the request. *)
Lemma unbounded_query_returns_all_witness :
  let b := mkBucket "test-1" "testevents"
             [new_event 20; new_event 10; new_event 30] in
  let s := mkServer {[ "test-1"%string := b ]} ∅ ∅ in
  db s !! "test-1"%string = Some b
  /\ EventResource.get "test-1" (events_request 0 100 (-1)) s
     = (s, Ok (returns (BEvents [new_event 30; new_event 20; new_event 10]))).
Proof.
  cbv zeta. split; [reflexivity|].
  apply (unbounded_query_returns_all "test-1" (events_request 0 100 (-1))
           (mkServer {[ "test-1"%string :=
                          mkBucket "test-1" "testevents"
                            [new_event 20; new_event 10; new_event 30] ]} ∅ ∅)
           (mkBucket "test-1" "testevents"
              [new_event 20; new_event 10; new_event 30])).
  reflexivity.
Defined.

(** ** Sorting what is already in order of time *)

Section Ascending.
Import Datastore.

Lemma insert_desc_oldest (x : Event) (l : list Event) :
  Forall (older x) l -> insert_desc x l = l ++ [x].
Proof.
  induction 1 as [|y l Hy _ IH]; [reflexivity|].
  cbn [insert_desc app]. unfold older in Hy.
  destruct (Z.leb_spec (timestamp y) (timestamp x)); [lia|].
  now rewrite IH.
Qed.

(** Events stored in strictly increasing order of time come back
    reversed. *)
Lemma sort_desc_ascending (l : list Event) :
  StronglySorted older l -> sort_desc l = rev l.
Proof.
  induction 1 as [|x l _ IH Hx]; [reflexivity|].
  cbn [sort_desc foldr rev]. fold (sort_desc l). rewrite IH.
  apply insert_desc_oldest.
  apply List.Forall_forall. intros y Hy. apply in_rev in Hy.
  rewrite List.Forall_forall in Hx. now apply Hx.
Qed.

End Ascending.

(** ** The events endpoint and the query arguments *)

(** C4, on the code: the events endpoint reads no start, end or limit: it
    asks the store without arguments, so two requests for the same bucket
    get the same answer whatever their query arguments, and the answer
    holds every event of the bucket, most recent first.  Asked for one
    day with a limit of 50, a bucket of a thousand events an hour apart
    answers with all thousand, not with the 25 of that day. *)
Theorem events_get_ignores_query (id : string) (request request' : Request)
    (s : Server) (b : Bucket) (Hb : db s !! id = Some b) :
  EventResource.get id request s = EventResource.get id request' s
  /\ exists l,
       outcome (EventResource.get id request) s = Ok (returns (BEvents l))
       /\ Permutation l (events b)
       /\ length l = length (events b)
       /\ StronglySorted newest_first l.
Proof.
  split; [reflexivity|].
  exists (Datastore.sort_desc (events b)).
  split.
  - unfold outcome, EventResource.get, bind, db_getitem, Datastore.getitem.
    rewrite Hb. unfold ret. cbn [snd].
    unfold Datastore.get, Datastore.truncate. now rewrite filter_unbounded.
  - split; [apply sort_desc_perm|].
    split; [apply Permutation_length, sort_desc_perm | apply sort_desc_sorted].
Qed.

(** The bucket of [test_get_events_interval], a thousand events an hour
    apart from fifty days ago, asked for the first day with a limit of
    50, answers with a thousand events. *)
Lemma events_get_ignores_query_witness :
  let start := a_moment - days 50 in
  let b := mkBucket "test-1" "testevents" (hourly_events 1000 start) in
  let s := mkServer {[ "test-1"%string := b ]} ∅ ∅ in
  let request := events_request start (start + days 1) 50 in
  db s !! "test-1"%string = Some b
  /\ length (events b) = 1000%nat
  /\ exists l,
       outcome (EventResource.get "test-1" request) s = Ok (returns (BEvents l))
       /\ length l = length (events b).
Proof.
  cbv zeta. split; [reflexivity|].
  split; [unfold hourly_events; cbn [events]; now rewrite length_map, length_seq|].
  assert (Hb : db (mkServer {[ "test-1"%string :=
                                 mkBucket "test-1" "testevents"
                                   (hourly_events 1000 (a_moment - days 50)) ]} ∅ ∅)
               !! "test-1"%string
               = Some (mkBucket "test-1" "testevents"
                         (hourly_events 1000 (a_moment - days 50))))
    by reflexivity.
  destruct (events_get_ignores_query "test-1"
              (events_request (a_moment - days 50) (a_moment - days 50 + days 1) 50)
              (events_request 0 0 0) _ _ Hb) as (_ & l & Hl & _ & Hlen & _).
  exists l. split; [exact Hl | exact Hlen].
Defined.

(** * Further properties of the resources *)

(** ** Sessions: start, restart, verify *)

(** X1: with the security flag set, after a session is started its id
    verifies with the key that [start_session] returned and with no other
    key. *)
Theorem started_session_verifies (rnd : nat -> byte) (session_id : string)
    (sessions : gmap string Session) (key' : string) :
  let '(sessions', key) := SessionManager.start_session rnd session_id sessions in
  SessionManager.verify_session_if true sessions' session_id key' = true
  <-> key' = key.
Proof.
  unfold SessionManager.start_session, SessionManager.verify_session_if.
  rewrite lookup_insert_eq. cbn [session_key]. rewrite String.eqb_eq.
  split; congruence.
Qed.

(** X2: starting a session again under the same id keeps only the second
    start: the session map is the one the second start alone gives, the
    first key still verifies only if the entropy source gave the same 24
    bytes both times, and the sessions of other ids verify as before. *)
Theorem restarted_session_replaces_key (rnd1 rnd2 : nat -> byte)
    (session_id other : string) (sessions : gmap string Session) :
  let '(sessions1, key1) := SessionManager.start_session rnd1 session_id sessions in
  let '(sessions2, key2) := SessionManager.start_session rnd2 session_id sessions1 in
  sessions2 = fst (SessionManager.start_session rnd2 session_id sessions)
  /\ (SessionManager.verify_session_if true sessions2 session_id key1 = true
      <-> os_urandom rnd1 24 = os_urandom rnd2 24)
  /\ (other <> session_id ->
      forall key,
        SessionManager.verify_session_if true sessions2 other key
        = SessionManager.verify_session_if true sessions other key).
Proof.
  unfold SessionManager.start_session, SessionManager.verify_session_if.
  cbn [fst]. split; [apply insert_insert_eq|]. split.
  - rewrite lookup_insert_eq. cbn [session_key]. rewrite String.eqb_eq.
    split.
    + intros H. symmetry. now apply hexlify_inj.
    + intros H. now rewrite H.
  - intros Hne key. now rewrite !lookup_insert_ne by congruence.
Qed.

(** ** What each handler does to the state *)

Lemma bucket_get_state (id : string) (request : Request) (s : Server) :
  state_after (BucketResource.get id request) s = s.
Proof.
  unfold state_after, BucketResource.get, bind, db_getitem, Datastore.getitem.
  now destruct (db s !! id).
Qed.

Lemma events_get_state (id : string) (request : Request) (s : Server) :
  state_after (EventResource.get id request) s = s.
Proof.
  unfold state_after, EventResource.get, bind, db_getitem, Datastore.getitem.
  now destruct (db s !! id).
Qed.

Lemma events_post_state (id : string) (request : Request) (s : Server) :
  state_after (EventResource.post id request) s
  = match db s !! id with
    | Some b => with_bucket s id (foldl Datastore.insert b (posted_events request))
    | None => s
    end.
Proof.
  unfold state_after, EventResource.post, posted_events.
  destruct (get_json request) as [e|es|v]; destruct (db s !! id) as [b|] eqn:E.
  - unfold bind. now rewrite (db_insert_found _ _ _ _ E).
  - unfold bind. now rewrite (db_insert_unknown _ _ _ E).
  - unfold bind. now rewrite (insert_each_found _ _ _ _ E).
  - destruct es as [|e es]; [reflexivity|].
    unfold bind. now rewrite (insert_each_unknown _ _ _ _ E).
  - cbn. symmetry. now apply with_bucket_id.
  - reflexivity.
Qed.

Lemma events_post_outcome (id : string) (request : Request) (s : Server) :
  outcome (EventResource.post id request) s
  = match get_json request, db s !! id with
    | JScalar _, _ => Ok (returns_with BEmpty 500)
    | JList [], _ => Ok (returns_with BEmpty 200)
    | _, Some _ => Ok (returns_with BEmpty 200)
    | _, None => Raise NotFound
    end.
Proof.
  unfold outcome, EventResource.post.
  destruct (get_json request) as [e|es|v]; destruct (db s !! id) as [b|] eqn:E.
  - unfold bind. now rewrite (db_insert_found _ _ _ _ E).
  - unfold bind. now rewrite (db_insert_unknown _ _ _ E).
  - unfold bind. rewrite (insert_each_found _ _ _ _ E). now destruct es.
  - destruct es as [|e es]; [reflexivity|].
    unfold bind. now rewrite (insert_each_unknown _ _ _ _ E).
  - reflexivity.
  - reflexivity.
Qed.

(** The heartbeat calls stop at the keyword; the other calls reach their
    methods. *)
Lemma handle_routed (c : ApiCall) :
  handle c
  = match c with
    | StartSession rnd value request => StartSessionResource.post rnd value request
    | StopSession value request => StopSessionResource.post value request
    | GetBucket value request => BucketResource.get value request
    | PostBucket value request => BucketResource.post value request
    | GetEvents value request => EventResource.get value request
    | PostEvents value request => EventResource.post value request
    | GetHeartbeat _ _ => raise TypeError
    | PostHeartbeat _ _ _ => raise TypeError
    end.
Proof. destruct c; reflexivity. Qed.

Lemma handle_db (c : ApiCall) (s : Server) :
  db (state_after (handle c) s)
  = match c with
    | PostEvents id request =>
        match db s !! id with
        | Some b => <[id := foldl Datastore.insert b (posted_events request)]> (db s)
        | None => db s
        end
    | _ => db s
    end.
Proof.
  rewrite handle_routed.
  destruct c as [rnd v r|v r|v r|v r|v r|v r|v r|now v r];
    rewrite ?bucket_get_state, ?events_get_state; try reflexivity.
  rewrite events_post_state. now destruct (db s !! v).
Qed.

Lemma handle_sessions (c : ApiCall) (s : Server) :
  sessions (state_after (handle c) s)
  = match c with
    | StartSession rnd session_id _ =>
        <[session_id := mkSession (binascii.hexlify (os_urandom rnd 24))]> (sessions s)
    | _ => sessions s
    end.
Proof.
  rewrite handle_routed.
  destruct c as [rnd v r|v r|v r|v r|v r|v r|v r|now v r];
    rewrite ?bucket_get_state, ?events_get_state; try reflexivity.
  rewrite events_post_state. now destruct (db s !! v).
Qed.

Lemma handle_heartbeats (c : ApiCall) (s : Server) :
  heartbeats (state_after (handle c) s) = heartbeats s.
Proof.
  rewrite handle_routed.
  destruct c as [rnd v r|v r|v r|v r|v r|v r|v r|now v r];
    rewrite ?bucket_get_state, ?events_get_state; try reflexivity.
  rewrite events_post_state. now destruct (db s !! v).
Qed.

Lemma bucket_fields_insert_all (es : list Event) (b : Bucket) :
  bucket_id (foldl Datastore.insert b es) = bucket_id b
  /\ event_type (foldl Datastore.insert b es) = event_type b.
Proof.
  revert b. induction es as [|e es IH]; intros b; [now split|].
  cbn [foldl]. destruct (IH (Datastore.insert b e)) as [-> ->]. now split.
Qed.

(** ** Invariants of any sequence of calls *)

Lemma run_calls_cons (c : ApiCall) (cs : list ApiCall) (s : Server) :
  run_calls (c :: cs) s = run_calls cs (state_after (handle c) s).
Proof. reflexivity. Qed.

Lemma handle_dom (c : ApiCall) (s : Server) :
  dom (db (state_after (handle c) s)) = dom (db s).
Proof.
  rewrite handle_db.
  destruct c as [rnd v r|v r|v r|v r|v r|v r|v r|now v r]; try reflexivity.
  destruct (db s !! v) as [b|] eqn:E; [|reflexivity].
  rewrite dom_insert_L. apply subseteq_union_1_L, singleton_subseteq_l.
  exact (elem_of_dom_2 _ _ _ E).
Qed.

(** X3: no sequence of calls creates or deletes a bucket: the store has
    the same bucket ids after it as before; the one handler meant to
    create buckets, [BucketResource.post], raises [NotImplementedError]
    and leaves the state as it was. *)
Theorem buckets_never_created (cs : list ApiCall) (s : Server) :
  dom (db (run_calls cs s)) = dom (db s)
  /\ forall id request,
       BucketResource.post id request s = (s, Raise NotImplementedError).
Proof.
  split; [|reflexivity].
  revert s. induction cs as [|c cs IH]; intros s; [reflexivity|].
  rewrite run_calls_cons, IH. apply handle_dom.
Qed.

Lemma handle_append (c : ApiCall) (s : Server) (id : string) (b : Bucket) :
  db s !! id = Some b ->
  exists b' added,
    db (state_after (handle c) s) !! id = Some b'
    /\ events b' = events b ++ added
    /\ bucket_id b' = bucket_id b
    /\ event_type b' = event_type b.
Proof.
  intros Hb. rewrite handle_db.
  assert (Hsame : exists b' added,
             db s !! id = Some b' /\ events b' = events b ++ added
             /\ bucket_id b' = bucket_id b /\ event_type b' = event_type b).
  { exists b, []. rewrite app_nil_r. now repeat split. }
  destruct c as [rnd v r|v r|v r|v r|v r|v r|v r|now v r]; try exact Hsame.
  destruct (db s !! v) as [b0|] eqn:E0; [|exact Hsame].
  destruct (decide (v = id)) as [->|Hne].
  - assert (b0 = b) as -> by congruence.
    destruct (insert_all_appends (posted_events r) b) as (added & He & _).
    destruct (bucket_fields_insert_all (posted_events r) b) as [Hi Ht].
    eexists _, added. rewrite lookup_insert_eq. now repeat split.
  - rewrite lookup_insert_ne by exact Hne. exact Hsame.
Qed.

(** X4: the store is append-only under every sequence of calls: a bucket
    that exists still exists afterwards, under the same id and type, and
    the events it held are, unchanged and in the same order, the first of
    the events it holds. *)
Theorem events_never_lost (cs : list ApiCall) (s : Server) (id : string)
    (b : Bucket) (Hb : db s !! id = Some b) :
  exists b' added,
    db (run_calls cs s) !! id = Some b'
    /\ events b' = events b ++ added
    /\ bucket_id b' = bucket_id b
    /\ event_type b' = event_type b.
Proof.
  revert s b Hb. induction cs as [|c cs IH]; intros s b Hb.
  - exists b, []. rewrite app_nil_r. now repeat split.
  - destruct (handle_append c s id b Hb) as (b1 & a1 & H1 & He1 & Hi1 & Ht1).
    destruct (IH _ _ H1) as (b2 & a2 & H2 & He2 & Hi2 & Ht2).
    exists b2, (a1 ++ a2). rewrite run_calls_cons.
    split; [exact H2|]. split; [|split; congruence].
    now rewrite He2, He1, app_assoc.
Qed.

(** A bucket holding one event keeps it first through an insert, a failed
    bucket creation and a heartbeat. *)
Lemma events_never_lost_witness :
  let b := mkBucket "test-1" "testevents" [new_event 7] in
  let s := mkServer {[ "test-1"%string := b ]} ∅ ∅ in
  let cs := [PostEvents "test-1" (mkRequest (JList [new_event 5]) ∅);
             PostBucket "test-2" (mkRequest (JScalar SNone) ∅);
             PostHeartbeat 9 "test-1" (heartbeat_request (new_event 9) 0)] in
  db s !! "test-1"%string = Some b
  /\ exists b' added,
       db (run_calls cs s) !! "test-1"%string = Some b'
       /\ events b' = events b ++ added
       /\ bucket_id b' = bucket_id b
       /\ event_type b' = event_type b.
Proof.
  cbv zeta. split; [reflexivity|].
  apply (events_never_lost
           [PostEvents "test-1" (mkRequest (JList [new_event 5]) ∅);
            PostBucket "test-2" (mkRequest (JScalar SNone) ∅);
            PostHeartbeat 9 "test-1" (heartbeat_request (new_event 9) 0)]
           (mkServer {[ "test-1"%string :=
                          mkBucket "test-1" "testevents" [new_event 7] ]} ∅ ∅)
           "test-1" (mkBucket "test-1" "testevents" [new_event 7])).
  reflexivity.
Defined.

Lemma sessions_after_calls (cs : list ApiCall) (s : Server) (session_id : string) :
  session_key <$> sessions (run_calls cs s) !! session_id
  = last_session_key session_id cs (session_key <$> sessions s !! session_id).
Proof.
  revert s. induction cs as [|c cs IH]; intros s; [reflexivity|].
  rewrite run_calls_cons, IH. unfold last_session_key. cbn [foldl].
  f_equal. rewrite handle_sessions.
  destruct c as [rnd v r|v r|v r|v r|v r|v r|v r|now v r]; try reflexivity.
  destruct (String.eqb_spec v session_id) as [->|Hne].
  - now rewrite lookup_insert_eq.
  - now rewrite lookup_insert_ne.
Qed.

(** X5: with the security flag set, after any sequence of calls a session
    id verifies with exactly one key, the one returned by the last start
    of that id among the calls, or else the one it had before them; stop
    calls and calls to the other resources change nothing of it. *)
Theorem session_key_after_calls (cs : list ApiCall) (s : Server)
    (session_id key : string) :
  SessionManager.verify_session_if true (sessions (run_calls cs s)) session_id key
  = true
  <-> last_session_key session_id cs (session_key <$> sessions s !! session_id)
      = Some key.
Proof.
  rewrite <- sessions_after_calls. unfold SessionManager.verify_session_if.
  destruct (sessions (run_calls cs s) !! session_id) as [session|]; cbn.
  - rewrite String.eqb_eq. split; congruence.
  - split; discriminate.
Qed.

Lemma last_session_key_some (session_id : string) (cs : list ApiCall)
    (before : option string) :
  is_Some before -> is_Some (last_session_key session_id cs before).
Proof.
  revert before. induction cs as [|c cs IH]; intros before H; [exact H|].
  unfold last_session_key. cbn [foldl]. apply IH.
  destruct c as [rnd v r|v r|v r|v r|v r|v r|v r|now v r]; try exact H.
  destruct (String.eqb v session_id); [now eexists | exact H].
Qed.

(** X6: a session is never closed: an id that has a session keeps one
    through every sequence of calls, stop calls included. *)
Theorem session_never_closed (cs : list ApiCall) (s : Server)
    (session_id : string) (H : is_Some (sessions s !! session_id)) :
  is_Some (sessions (run_calls cs s) !! session_id).
Proof.
  apply (fmap_is_Some session_key). rewrite sessions_after_calls.
  apply last_session_key_some. now apply fmap_is_Some.
Qed.

(** A session started and then stopped is still there. *)
Lemma session_never_closed_witness :
  let s := state_after
             (StartSessionResource.post (fun _ => x2a) "s1" (mkRequest (JScalar SNone) ∅))
             (mkServer ∅ ∅ ∅) in
  let cs := [StopSession "s1" (mkRequest (JScalar SNone) ∅)] in
  is_Some (sessions s !! "s1"%string)
  /\ is_Some (sessions (run_calls cs s) !! "s1"%string).
Proof.
  cbv zeta.
  assert (H : is_Some
                (sessions
                   (state_after
                      (StartSessionResource.post (fun _ => x2a) "s1"
                         (mkRequest (JScalar SNone) ∅))
                      (mkServer ∅ ∅ ∅)) !! "s1"%string)).
  { cbn. rewrite lookup_insert_eq. now eexists. }
  split; [exact H|].
  exact (session_never_closed [StopSession "s1" (mkRequest (JScalar SNone) ∅)]
           _ "s1" H).
Defined.

(** X7: through the routes as registered, no sequence of calls writes the
    module's [heartbeats] dictionary: it is after the calls what it was
    before.  The one method that writes it, [HeartbeatResource.post], is
    never reached: its route passes the URL variable as [session_id] and
    the method takes [client_name], so each heartbeat call raises
    [TypeError] and leaves the state as it was. *)
Theorem heartbeats_never_written (cs : list ApiCall) (s : Server) :
  heartbeats (run_calls cs s) = heartbeats s
  /\ forall now value request,
       handle (PostHeartbeat now value request) s = (s, Raise TypeError).
Proof.
  split; [|reflexivity].
  revert s. induction cs as [|c cs IH]; intros s; [reflexivity|].
  rewrite run_calls_cons, IH. apply handle_heartbeats.
Qed.

(** ** Posting events: batches, frame and failure *)

Lemma with_bucket_lookup (s : Server) (id : string) (b : Bucket) :
  db (with_bucket s id b) !! id = Some b.
Proof. unfold with_bucket. cbn [db]. apply lookup_insert_eq. Qed.

(** X8: posting an array in two parts, one call after the other, leaves
    the state that posting the whole array in one call leaves, for an
    existing bucket and for an unknown one, whatever the query arguments. *)
Theorem post_events_in_two_batches (id : string) (es1 es2 : list Event)
    (args1 args2 args12 : gmap string Z) (s : Server) :
  state_after (EventResource.post id (mkRequest (JList es2) args2))
    (state_after (EventResource.post id (mkRequest (JList es1) args1)) s)
  = state_after (EventResource.post id (mkRequest (JList (es1 ++ es2)) args12)) s.
Proof.
  rewrite (events_post_state id (mkRequest (JList es1) args1) s).
  rewrite (events_post_state id (mkRequest (JList (es1 ++ es2)) args12) s).
  unfold posted_events. cbn [get_json].
  destruct (db s !! id) as [b|] eqn:E.
  - rewrite events_post_state, with_bucket_lookup.
    unfold posted_events. cbn [get_json].
    now rewrite with_bucket_twice, foldl_app.
  - rewrite events_post_state. now rewrite E.
Qed.

(** X9: an object posted on its own and the same object posted as the
    only element of an array give the same state and the same answer:
    200 on an existing bucket, [NotFound] on an unknown one. *)
Theorem post_one_event_either_way (id : string) (e : Event)
    (args1 args2 : gmap string Z) (s : Server) :
  EventResource.post id (mkRequest (JDict e) args1) s
  = EventResource.post id (mkRequest (JList [e]) args2) s.
Proof.
  unfold EventResource.post. cbn [get_json insert_each]. unfold bind, ret.
  destruct (db_insert id e s) as [s1 [[]|err]]; reflexivity.
Qed.

(** X10: a POST to the events of a bucket touches nothing but that
    bucket: the sessions, the heartbeats and the other buckets stay as
    they were; on a bucket the store does not know the whole state stays
    as it was. *)
Theorem post_events_frame (id : string) (request : Request) (s : Server) :
  let s' := state_after (EventResource.post id request) s in
  sessions s' = sessions s
  /\ heartbeats s' = heartbeats s
  /\ (forall other, other <> id -> db s' !! other = db s !! other)
  /\ (db s !! id = None -> s' = s).
Proof.
  cbv zeta. rewrite events_post_state.
  destruct (db s !! id) as [b|] eqn:E.
  - split; [reflexivity|]. split; [reflexivity|]. split; [|discriminate].
    intros other Hne. unfold with_bucket. cbn [db].
    now rewrite lookup_insert_ne by congruence.
  - now repeat split.
Qed.

(** X11: what is posted is returned: after a POST to the events of an
    existing bucket, a GET returns, most recent first, the events the
    bucket held together with the posted ones, each with its timestamp,
    duration and data. *)
Theorem posted_events_are_returned (id : string) (request request' : Request)
    (s : Server) (b : Bucket) (Hb : db s !! id = Some b) :
  exists stored l,
    Forall2 same_content stored (posted_events request)
    /\ outcome (EventResource.get id request')
         (state_after (EventResource.post id request) s)
       = Ok (returns (BEvents l))
    /\ Permutation l (events b ++ stored)
    /\ StronglySorted newest_first l.
Proof.
  destruct (insert_all_appends (posted_events request) b) as (stored & He & Hc & _).
  exists stored, (Datastore.sort_desc (events b ++ stored)).
  split; [exact Hc|]. split.
  - rewrite events_post_state, Hb.
    unfold outcome, EventResource.get, bind, db_getitem, Datastore.getitem.
    rewrite with_bucket_lookup. unfold ret. cbn [snd].
    unfold Datastore.get, Datastore.truncate.
    now rewrite filter_unbounded, He.
  - split; [apply sort_desc_perm | apply sort_desc_sorted].
Qed.

(** Two events posted out of order to a bucket holding one come back
    with it, most recent first. *)
Lemma posted_events_are_returned_witness :
  let b := mkBucket "test-1" "testevents" [new_event 20] in
  let s := mkServer {[ "test-1"%string := b ]} ∅ ∅ in
  let request := mkRequest (JList [new_event 30; new_event 10]) ∅ in
  db s !! "test-1"%string = Some b
  /\ exists stored l,
       Forall2 same_content stored (posted_events request)
       /\ outcome (EventResource.get "test-1" (events_request 0 100 1))
            (state_after (EventResource.post "test-1" request) s)
          = Ok (returns (BEvents l))
       /\ Permutation l (events b ++ stored)
       /\ StronglySorted newest_first l.
Proof.
  cbv zeta. split; [reflexivity|].
  apply (posted_events_are_returned "test-1"
           (mkRequest (JList [new_event 30; new_event 10]) ∅)
           (events_request 0 100 1)
           (mkServer {[ "test-1"%string :=
                          mkBucket "test-1" "testevents" [new_event 20] ]} ∅ ∅)
           (mkBucket "test-1" "testevents" [new_event 20])).
  reflexivity.
Defined.

(** ** Calls that only read *)

Lemma only_reads_state (c : ApiCall) (s : Server) :
  only_reads c = true -> state_after (handle c) s = s.
Proof.
  rewrite handle_routed.
  destruct c as [rnd v r|v r|v r|v r|v r|v r|v r|now v r];
    cbn [only_reads]; try discriminate; intros _.
  - reflexivity.
  - apply bucket_get_state.
  - reflexivity.
  - apply events_get_state.
  - reflexivity.
Qed.

(** X12: a sequence of calls made only of GETs, session stops and bucket
    creations leaves the whole state (store, sessions, heartbeats) as it
    was, whether the calls return or raise. *)
Theorem reading_changes_nothing (cs : list ApiCall) (s : Server)
    (H : forallb only_reads cs = true) :
  run_calls cs s = s.
Proof.
  revert s. induction cs as [|c cs IH]; intros s; [reflexivity|].
  cbn [forallb] in H. apply andb_true_iff in H as [Hc Hcs].
  now rewrite run_calls_cons, (only_reads_state c s Hc), IH.
Qed.

(** Reads of an unknown bucket, a stop and a refused creation leave a
    fresh server as it was. *)
Lemma reading_changes_nothing_witness :
  let cs := [GetEvents "no-such-bucket" (events_request 0 100 1);
             GetBucket "test-1" (mkRequest (JScalar SNone) ∅);
             StopSession "s1" (mkRequest (JScalar SNone) ∅);
             PostBucket "test-2" (mkRequest (JScalar SNone) ∅);
             GetHeartbeat "test-1" (mkRequest (JScalar SNone) ∅)] in
  forallb only_reads cs = true
  /\ run_calls cs (fresh_server "test-1") = fresh_server "test-1".
Proof.
  cbv zeta. split; [reflexivity|].
  apply (reading_changes_nothing
           [GetEvents "no-such-bucket" (events_request 0 100 1);
            GetBucket "test-1" (mkRequest (JScalar SNone) ∅);
            StopSession "s1" (mkRequest (JScalar SNone) ∅);
            PostBucket "test-2" (mkRequest (JScalar SNone) ∅);
            GetHeartbeat "test-1" (mkRequest (JScalar SNone) ∅)]
           (fresh_server "test-1")).
  reflexivity.
Defined.

(** ** Sending events in order of time and reading them back *)

Lemma same_content_older (x : Event) (stored sent : list Event) (y : Event) :
  timestamp x = timestamp y ->
  Forall2 same_content stored sent ->
  Forall (older y) sent -> Forall (older x) stored.
Proof.
  intros Hxy H. induction H as [|a b' l l' (Ht & _) _ IH]; intros Hf.
  - constructor.
  - apply Forall_cons in Hf as [Hb Hl].
    constructor; [unfold older in *; lia | now apply IH].
Qed.

Lemma same_content_ascending (stored sent : list Event) :
  Forall2 same_content stored sent ->
  StronglySorted older sent -> StronglySorted older stored.
Proof.
  induction 1 as [|x y l l' (Ht & _) Hl IH]; intros Hs; [constructor|].
  apply StronglySorted_inv in Hs as [Hs Hy].
  constructor; [now apply IH|].
  now apply (same_content_older x l l' y).
Qed.

(** X13: events in strictly increasing order of time, sent in one array
    to an empty bucket, are stored in the order sent, each with the
    timestamp, duration and data it was sent with; a GET then returns all
    of them in the reverse order, most recent first (what
    [test_store_many_events] and [test_send_events] expect of their
    events). *)
Theorem sent_events_come_back_reversed (id : string) (sent : list Event)
    (args : gmap string Z) (request' : Request) (s : Server) (b : Bucket)
    (Hb : db s !! id = Some b) (He : events b = [])
    (Hs : StronglySorted older sent) :
  let s' := state_after (EventResource.post id (mkRequest (JList sent) args)) s in
  exists stored,
    events_of s' id = Some stored
    /\ Forall2 same_content stored sent
    /\ outcome (EventResource.get id request') s' = Ok (returns (BEvents (rev stored))).
Proof.
  cbv zeta. rewrite events_post_state, Hb.
  unfold posted_events. cbn [get_json].
  destruct (insert_all_appends sent b) as (stored & Hev & Hc & _).
  rewrite He in Hev. cbn [app] in Hev.
  exists stored. split; [|split; [exact Hc|]].
  - unfold events_of. rewrite with_bucket_lookup. exact (f_equal Some Hev).
  - unfold outcome, EventResource.get, bind, db_getitem, Datastore.getitem.
    rewrite with_bucket_lookup. unfold ret. cbn [snd].
    unfold Datastore.get, Datastore.truncate.
    rewrite filter_unbounded, Hev.
    rewrite sort_desc_ascending; [reflexivity|].
    now apply (same_content_ascending stored sent).
Qed.

(** Three events a second apart sent to an empty bucket come back most
    recent first. *)
Lemma sent_events_come_back_reversed_witness :
  let s := fresh_server "test-1" in
  let sent := [new_event a_moment; new_event (a_moment + seconds 1);
               new_event (a_moment + seconds 2)] in
  let s' := state_after (EventResource.post "test-1" (mkRequest (JList sent) ∅)) s in
  db s !! "test-1"%string = Some (mkBucket "test-1" "testevents" [])
  /\ exists stored,
       events_of s' "test-1" = Some stored
       /\ Forall2 same_content stored sent
       /\ outcome (EventResource.get "test-1" (events_request 0 1 (-1))) s'
          = Ok (returns (BEvents (rev stored))).
Proof.
  cbv zeta. split; [reflexivity|].
  apply (sent_events_come_back_reversed "test-1"
           [new_event a_moment; new_event (a_moment + seconds 1);
            new_event (a_moment + seconds 2)]
           ∅ (events_request 0 1 (-1)) (fresh_server "test-1")
           (mkBucket "test-1" "testevents" [])).
  - reflexivity.
  - reflexivity.
  - repeat constructor.
Defined.
